(** * Verification of the faster-whisper HTTP transcription service

    Shallow embedding of [src/services/whisper-server.py]: the raw PCM
    decoding done with numpy, the [/transcribe] handler with its
    [try / except Exception] boundary, and the [/health] handler.

    Conventions of the embedding:
    - a Python [str] is a list of Unicode code points ([N]);
    - [bytes] is a list of [Byte.byte];
    - a numpy [float32] is a [spec_float] of precision 24 and [emax] 128,
      computed with the IEEE operations of the Standard Library;
    - the resident [WhisperModel] is an external collaborator: its
      [transcribe] method is a variable of the section, with a hidden
      state of its own;
    - a raised object records whether it is an instance of Python's
      [Exception]; the objects that derive from [BaseException] only
      (task cancellation, keyboard interrupt, interpreter exit) are not,
      and [except Exception] does not catch them. *)

From Stdlib Require Import ZArith NArith QArith Lia List Bool String Ascii.
From Stdlib Require Import Floats.SpecFloat.
From stdpp Require Import base option list countable strings gmap.

Local Open Scope Z_scope.

(** ** Python strings *)

Module PyStr.

(** A Python [str]: a sequence of Unicode code points. *)
Abbreviation str := (list N).

(** A source literal (ASCII) as a [str]. *)
Definition lit (s : string) : str :=
  map (fun a => N_of_ascii a) (list_ascii_of_string s).

(** [str.isspace] on one code point: the code points CPython's
    [_PyUnicode_IsWhitespace] accepts. *)
Definition isspace (c : N) : bool :=
  (((9 <=? c) && (c <=? 13)) || ((28 <=? c) && (c <=? 32))
   || (c =? 133) || (c =? 160) || (c =? 5760)
   || ((8192 <=? c) && (c <=? 8202))
   || (c =? 8232) || (c =? 8233) || (c =? 8239) || (c =? 8287)
   || (c =? 12288))%N.

(** [s.lstrip()] *)
Fixpoint lstrip (s : str) : str :=
  match s with
  | c :: s' => if isspace c then lstrip s' else s
  | [] => []
  end.

(** [s.rstrip()] *)
Definition rstrip (s : str) : str := rev (lstrip (rev s)).

(** [s.strip()] with no argument: whitespace removed at both ends. *)
Definition strip (s : str) : str := rstrip (lstrip s).

(** [sep.join(parts)] *)
Fixpoint join (sep : str) (parts : list str) : str :=
  match parts with
  | [] => []
  | [p] => p
  | p :: rest => p ++ sep ++ join sep rest
  end.

End PyStr.
Import PyStr.

(** ** Exceptions *)

(** A raised object: its class name, what [str(e)] gives, and whether
    [isinstance(e, Exception)] holds. *)
Record PyExn := mkRaised { exn_class : str; exn_str : str; exn_is_exception : bool }.

(** An instance of [Exception]. *)
Definition mkExn (class msg : str) : PyExn := mkRaised class msg true.

(** An object that derives from [BaseException] without deriving from
    [Exception]. *)
Definition mkBaseExn (class msg : str) : PyExn := mkRaised class msg false.

(** Outcome of evaluating a Python expression. *)
Inductive Py (A : Type) : Type :=
| Ok (a : A)
| Raise (e : PyExn).
Arguments Ok {A} a.
Arguments Raise {A} e.

(** The error numpy raises when a buffer does not hold whole items. *)
Definition ValueError_buffer_size : PyExn :=
  mkExn (lit "ValueError") (lit "buffer size must be a multiple of element size").

(** ** numpy: int16 view of a buffer, float32 arithmetic *)

Module Np.

Inductive byteorder := LittleEndian | BigEndian.

Definition byte_val (b : Byte.byte) : Z := Z.of_N (Byte.to_N b).

(** Two's complement reading of a 16-bit pattern. *)
Definition signed16 (u : Z) : Z := if u <? 32768 then u else u - 65536.

(** One [int16] item from the two bytes at its address. *)
Definition int16_of_bytes (bo : byteorder) (b0 b1 : Byte.byte) : Z :=
  match bo with
  | LittleEndian => signed16 (byte_val b0 + 256 * byte_val b1)
  | BigEndian => signed16 (byte_val b1 + 256 * byte_val b0)
  end.

Fixpoint int16_items (bo : byteorder) (buf : list Byte.byte) : list Z :=
  match buf with
  | b0 :: b1 :: rest => int16_of_bytes bo b0 b1 :: int16_items bo rest
  | _ => []
  end.

(** [np.frombuffer(buf, dtype=np.int16)]: [np.int16] has the byte order
    of the host; a buffer whose size is not a multiple of the item size
    (2) is refused with [ValueError]. *)
Definition frombuffer_int16 (bo : byteorder) (buf : list Byte.byte) : Py (list Z) :=
  if (Z.of_nat (length buf) mod 2 =? 0)
  then Ok (int16_items bo buf)
  else Raise ValueError_buffer_size.

(** IEEE binary32. *)
Definition prec32 : Z := 24.
Definition emax32 : Z := 128.
Definition float32 := spec_float.

(** Conversion of an integer to binary32, round to nearest even. *)
Definition float32_of_Z (z : Z) : float32 := binary_normalize prec32 emax32 z 0 false.

(** [a.astype(np.float32)] *)
Definition astype_float32 (a : list Z) : list float32 := map float32_of_Z a.

(** [a / c] for a float32 array and a Python scalar: the scalar is taken
    at the array's precision and the division is elementwise. *)
Definition true_divide (a : list float32) (c : float32) : list float32 :=
  map (fun x => SFdiv prec32 emax32 x c) a.

(** The literal [32768.0]. *)
Definition f32768 : float32 := float32_of_Z 32768.

(** Lines 34 to 37 of the source, the spec's [decode]: the int16 view of
    the body, converted to float32 and divided by [32768.0]. *)
Definition decode (bo : byteorder) (audio_data : list Byte.byte) : Py (list float32) :=
  match frombuffer_int16 bo audio_data with
  | Ok audio_array => Ok (true_divide (astype_float32 audio_array) f32768)
  | Raise e => Raise e
  end.

End Np.

(** The exact rational a finite float stands for (0 for the others). *)
Definition SF2Q (f : spec_float) : Q :=
  match f with
  | S754_finite s m e =>
      let n := if s then Z.neg m else Z.pos m in
      match e with
      | Z0 => inject_Z n
      | Zpos p => inject_Z (n * Z.pow_pos 2 p)
      | Zneg p => Qmake n (Pos.pow 2 p)
      end
  | _ => 0%Q
  end.

Definition is_finite (f : spec_float) : bool :=
  match f with
  | S754_finite _ _ _ | S754_zero _ => true
  | _ => false
  end.

(** The float32 constants the claims compare samples with. *)
Definition f32_one : Np.float32 := Np.float32_of_Z 1.
Definition f32_minus_one : Np.float32 := Np.float32_of_Z (-1).
(** 32767/32768, the largest sample. *)
Definition f32_top : Np.float32 := S754_finite false 16776704 (-24).

(** ** Values, dicts, the model's interface *)

(** The Python values the handlers put in their answers. *)
Inductive pyval :=
| VStr (s : str)
| VBool (b : bool)
| VInt (z : Z)
| VFloat (f : spec_float).

(** One item of the generator [model.transcribe] returns; only [text] is
    read by the handler. *)
Record Segment := mkSegment { seg_start : spec_float; seg_end : spec_float; text : str }.

(** The lazy generator of segments: it yields, stops, or raises part-way. *)
Inductive SegmentIter :=
| IterStop
| IterYield (s : Segment) (rest : SegmentIter)
| IterRaise (e : PyExn).

(** A generator that yields the given segments and stops. *)
Fixpoint iter_of_list (l : list Segment) : SegmentIter :=
  match l with
  | [] => IterStop
  | s :: l' => IterYield s (iter_of_list l')
  end.

Record TranscriptionInfo := mkInfo { language : str; language_probability : spec_float }.

(** Keyword arguments of the call at lines 40 to 46. *)
Record TranscribeKwargs := mkKwargs {
  kw_language : str;
  kw_beam_size : Z;
  kw_vad_filter : bool;
  kw_vad_parameters : gmap str pyval
}.

(** One recorded invocation of [model.transcribe]. *)
Record ModelCall := mkCall { call_audio : list Np.float32; call_kwargs : TranscribeKwargs }.

(** Dict keys and literals of the source. *)
Definition k_text : str := lit "text".
Definition k_is_final : str := lit "is_final".
Definition k_language : str := lit "language".
Definition k_language_probability : str := lit "language_probability".
Definition k_error : str := lit "error".
Definition k_status : str := lit "status".
Definition k_model : str := lit "model".
Definition k_device : str := lit "device".

(** The dict of lines 55 to 60. *)
Definition success_dict (full_text : str) (info : TranscriptionInfo) : gmap str pyval :=
  {[ k_text := VStr full_text;
     k_is_final := VBool true;
     k_language := VStr (language info);
     k_language_probability := VFloat (language_probability info) ]}.

(** The dict of lines 63 to 67. *)
Definition error_dict (e : PyExn) : gmap str pyval :=
  {[ k_text := VStr (lit "");
     k_is_final := VBool true;
     k_error := VStr (exn_str e) ]}.

(** The keyword arguments the source passes. *)
Definition source_kwargs : TranscribeKwargs :=
  {| kw_language := lit "en";
     kw_beam_size := 5;
     kw_vad_filter := true;
     kw_vad_parameters := {[ lit "min_silence_duration_ms" := VInt 500 ]} |}.

(** The loop of lines 49 to 51. *)
Fixpoint for_segments (segments : SegmentIter) (text_parts : list str) : Py (list str) :=
  match segments with
  | IterStop => Ok text_parts
  | IterYield segment rest => for_segments rest (text_parts ++ [text segment])
  | IterRaise e => Raise e
  end.

(** Lines 49 to 53, the spec's [assemble]. *)
Definition assemble (segments : SegmentIter) : Py str :=
  match for_segments segments [] with
  | Ok text_parts => Ok (strip (join (lit " ") text_parts))
  | Raise e => Raise e
  end.

(** [os.getenv(key, default)] *)
Definition getenv (environ : gmap str str) (key default : str) : str :=
  match environ !! key with
  | Some v => v
  | None => default
  end.

(** ** The server process *)

Module WhisperServer.

Section Server.

(** Hidden state of the [WhisperModel] object. *)
Variable ModelState : Type.

(** The constructor [WhisperModel(size, device=, compute_type=)]. *)
Variable WhisperModel : str -> str -> str -> Py ModelState.

(** [model.transcribe(audio, **kwargs)], with the effect of running the
    generator it returns to its end. *)
Variable model_transcribe :
  ModelState -> list Np.float32 -> TranscribeKwargs ->
  Py (SegmentIter * TranscriptionInfo) * ModelState.

(** Byte order of the host, which [np.int16] follows. *)
Variable host : Np.byteorder.

(** Module globals of the process, and the log of calls made to the
    model (instrumentation). *)
Record Proc := mkProc {
  model_size : str;
  device : str;
  compute_type : str;
  model : ModelState;
  calls : list ModelCall
}.

(** Lines 15 to 20. *)
Definition startup (environ : gmap str str) : Py Proc :=
  let model_size := getenv environ (lit "MODEL_SIZE") (lit "base") in
  let device := getenv environ (lit "DEVICE") (lit "cpu") in
  let compute_type := getenv environ (lit "COMPUTE_TYPE") (lit "int8") in
  match WhisperModel model_size device compute_type with
  | Ok m => Ok (mkProc model_size device compute_type m [])
  | Raise e => Raise e
  end.

(** Computations of a handler: they read and update the process and
    return or raise. *)
Definition M (A : Type) : Type := Proc -> Py A * Proc.

Definition ret {A} (a : A) : M A := fun st => (Ok a, st).

Definition bind {A B} (m : M A) (k : A -> M B) : M B :=
  fun st =>
    match m st with
    | (Ok a, st') => k a st'
    | (Raise e, st') => (Raise e, st')
    end.

Definition lift {A} (r : Py A) : M A := fun st => (r, st).

Definition gets {A} (f : Proc -> A) : M A := fun st => (Ok (f st), st).

(** [try: body except Exception as e: handler(e)]: an object that is
    not an instance of [Exception] is not caught and goes on to the
    caller. *)
Definition try_except {A} (body : M A) (handler : PyExn -> M A) : M A :=
  fun st =>
    match body st with
    | (Ok a, st') => (Ok a, st')
    | (Raise e, st') =>
        if exn_is_exception e then handler e st' else (Raise e, st')
    end.

(** The call on the global [model]. *)
Definition call_model (audio : list Np.float32) (kw : TranscribeKwargs)
  : M (SegmentIter * TranscriptionInfo) :=
  fun st =>
    let '(r, m') := model_transcribe (model st) audio kw in
    (r, mkProc (model_size st) (device st) (compute_type st) m'
               (calls st ++ [mkCall audio kw])).

Notation "x <- c1 ;; c2" := (bind c1 (fun x => c2))
  (at level 100, c1 at next level, right associativity).

(** The body of the [try] of [transcribe] once line 31 has read
    [audio_data], lines 33 to 60. *)
Definition transcribe_try (audio_data : list Byte.byte) : M (gmap str pyval) :=
  audio_float <- lift (Np.decode host audio_data) ;;
  result <- call_model audio_float source_kwargs ;;
  let '(segments, info) := result in
  full_text <- lift (assemble segments) ;;
  ret (success_dict full_text info).

(** [POST /transcribe], on a request whose body has been read as
    [audio_data]. *)
Definition transcribe (audio_data : list Byte.byte) : M (gmap str pyval) :=
  try_except (transcribe_try audio_data) (fun e => ret (error_dict e)).

(** An inbound request: what [await request.body()] gives, the bytes of
    the body or the object raised at the await (the client went away, the
    task was cancelled). *)
Record Request := mkRequest { request_body : Py (list Byte.byte) }.

(** The whole [try] block, lines 30 to 60: the await of line 31 is inside
    it. *)
Definition transcribe_request_try (request : Request) : M (gmap str pyval) :=
  audio_data <- lift (request_body request) ;;
  transcribe_try audio_data.

(** [async def transcribe(request)], lines 24 to 67. *)
Definition transcribe_request (request : Request) : M (gmap str pyval) :=
  try_except (transcribe_request_try request) (fun e => ret (error_dict e)).

(** [GET /health] *)
Definition health : M (gmap str pyval) :=
  size <- gets model_size ;;
  dev <- gets device ;;
  ret ({[ k_status := VStr (lit "ok"); k_model := VStr size; k_device := VStr dev ]}
        : gmap str pyval).

(** The process after the call of the model made for [audio]. *)
Definition after_call (st : Proc) (audio : list Np.float32) : Proc :=
  mkProc (model_size st) (device st) (compute_type st)
         (snd (model_transcribe (model st) audio source_kwargs))
         (calls st ++ [mkCall audio source_kwargs]).

(** The two routes. *)
Inductive Req :=
| PostTranscribe (body : list Byte.byte)
| GetHealth.

Definition dispatch (r : Req) : M (gmap str pyval) :=
  match r with
  | PostTranscribe body => transcribe body
  | GetHealth => health
  end.

(** Requests served one after the other: the answers and the process
    afterwards. An object that a handler lets through is recorded as the
    answer to that request. *)
Fixpoint serve (rs : list Req) (st : Proc) : list (Py (gmap str pyval)) * Proc :=
  match rs with
  | [] => ([], st)
  | r :: rs' =>
      let '(a, st1) := dispatch r st in
      let '(answers, st2) := serve rs' st1 in
      (a :: answers, st2)
  end.

End Server.

Arguments mkProc {ModelState}.
Arguments model_size {ModelState}.
Arguments device {ModelState}.
Arguments compute_type {ModelState}.
Arguments model {ModelState}.
Arguments calls {ModelState}.
Arguments health {ModelState}.
Arguments after_call {ModelState}.

End WhisperServer.
Import WhisperServer.

(** ** Notions used in the statements *)

(** The specification's name for the failure of decoding; in the source
    it is the [ValueError] that [np.frombuffer] raises. *)
Definition MalformedAudioError : PyExn := ValueError_buffer_size.

(** The i-th little-endian signed 16-bit integer of a buffer, read at the
    byte offsets [2i] and [2i+1] (the reading the specification gives). *)
Definition le_int16_at (buf : list Byte.byte) (i : nat) : option Z :=
  match buf !! (2 * i)%nat, buf !! (2 * i + 1)%nat with
  | Some lo, Some hi =>
      let u := Np.byte_val lo + 256 * Np.byte_val hi in
      Some (if 2 ^ 15 <=? u then u - 2 ^ 16 else u)
  | _, _ => None
  end.

(** The sample computed from one int16 item. *)
Definition sample_of (z : Z) : Np.float32 :=
  SFdiv Np.prec32 Np.emax32 (Np.float32_of_Z z) Np.f32768.

(** What is checked of the sample of every int16 value. *)
Definition sample_chk (z : Z) : bool :=
  let s := sample_of z in
  is_finite s
  && Qeq_bool (SF2Q s) (Qmake z 32768)
  && SFleb f32_minus_one s
  && SFleb s f32_top
  && SFleb s f32_one
  && negb (SFeqb s f32_one)
  && Bool.eqb (SFeqb s f32_minus_one) (z =? -32768).

Fixpoint all_from (P : Z -> bool) (n : nat) (z : Z) : bool :=
  match n with
  | O => true
  | S n' => P z && all_from P n' (z + 1)
  end.

(** The texts in order, one space between neighbours (the reading the
    specification gives of the joined string). *)
Fixpoint intersperse {A} (sep : A) (l : list A) : list A :=
  match l with
  | [] => []
  | [x] => [x]
  | x :: l' => x :: sep :: intersperse sep l'
  end.

Definition space_separated (texts : list str) : str :=
  concat (intersperse [32%N] texts).

Definition all_space (s : str) : Prop := Forall (fun c => isspace c = true) s.

Definition no_leading_space (s : str) : Prop :=
  match s with
  | c :: _ => isspace c = false
  | [] => True
  end.

Definition no_trailing_space (s : str) : Prop := no_leading_space (rev s).

(** ** Test doubles for the model *)

Module Fixtures.

Definition seg (t : string) : Segment :=
  mkSegment (S754_zero false) (S754_zero false) (lit t).

Definition info_en : TranscriptionInfo := mkInfo (lit "en") f32_one.

(** Counts its calls; no segment for empty audio, two otherwise. *)
Definition quiet_model (n : nat) (audio : list Np.float32) (kw : TranscribeKwargs)
  : Py (SegmentIter * TranscriptionInfo) * nat :=
  (Ok (match audio with
       | [] => IterStop
       | _ => iter_of_list [seg " hello"; seg " world"]
       end, info_en), S n).

(** Refuses empty audio. *)
Definition strict_model (n : nat) (audio : list Np.float32) (kw : TranscribeKwargs)
  : Py (SegmentIter * TranscriptionInfo) * nat :=
  match audio with
  | [] => (Raise (mkExn (lit "ValueError") (lit "empty audio")), S n)
  | _ => quiet_model n audio kw
  end.

(** Answers from its state: not a function of the audio alone. *)
Definition drifting_model (n : nat) (audio : list Np.float32) (kw : TranscribeKwargs)
  : Py (SegmentIter * TranscriptionInfo) * nat :=
  (Ok (iter_of_list [if Nat.even n then seg "even" else seg "odd"], info_en), S n).

(** Fails while its generator is consumed. *)
Definition breaking_model (n : nat) (audio : list Np.float32) (kw : TranscribeKwargs)
  : Py (SegmentIter * TranscriptionInfo) * nat :=
  (Ok (IterYield (seg "partial") (IterRaise (mkExn (lit "RuntimeError") (lit "device fault"))),
       info_en), S n).

Definition proc0 : Proc nat := mkProc (lit "base") (lit "cpu") (lit "int8") O [].

End Fixtures.

(** The model answers from its arguments alone. *)
Definition deterministic_model {ModelState : Type}
  (model_transcribe : ModelState -> list Np.float32 -> TranscribeKwargs ->
                      Py (SegmentIter * TranscriptionInfo) * ModelState) : Prop :=
  forall m m' audio kw,
    fst (model_transcribe m audio kw) = fst (model_transcribe m' audio kw).

(** ** Notions used for the further properties *)

(** A buffer with the two bytes of every item exchanged. *)
Fixpoint swap_pairs (buf : list Byte.byte) : list Byte.byte :=
  match buf with
  | b0 :: b1 :: rest => b1 :: b0 :: swap_pairs rest
  | _ => buf
  end.

(** A generator that yields the given segments and then raises. *)
Fixpoint iter_raising (l : list Segment) (e : PyExn) : SegmentIter :=
  match l with
  | [] => IterRaise e
  | s :: l' => IterYield s (iter_raising l' e)
  end.


(** The requests that get as far as the model. *)
Definition reaches_model (r : Req) : bool :=
  match r with
  | PostTranscribe body => Nat.even (length body)
  | GetHealth => false
  end.

(** The answers given to the requests that satisfy [keep]. *)
Definition answers_to {A} (keep : Req -> bool) (rs : list Req) (answers : list A) : list A :=
  map snd (List.filter (fun p => keep (fst p)) (combine rs answers)).

(** The characters of a string that are not whitespace, in order. *)
Definition visible (s : str) : str := List.filter (fun c => negb (isspace c)) s.


Definition KeyboardInterrupt : PyExn := mkBaseExn (lit "KeyboardInterrupt") (lit "").

(** A request whose body has been read, and one cancelled at the await. *)
Definition inbound (audio_data : list Byte.byte) : Request := mkRequest (Ok audio_data).


Fixpoint str_eqb (a b : str) : bool :=
  match a, b with
  | [], [] => true
  | x :: a', y :: b' => (x =? y)%N && str_eqb a' b'
  | _, _ => false
  end.

(** A model that answers only to the keyword arguments of the source. *)
Definition picky_model (n : nat) (audio : list Np.float32) (kw : TranscribeKwargs)
  : Py (SegmentIter * TranscriptionInfo) * nat :=
  if str_eqb (kw_language kw) (lit "en")
     && (kw_beam_size kw =? 5)
     && kw_vad_filter kw
     && match kw_vad_parameters kw !! lit "min_silence_duration_ms" with
        | Some (VInt ms) => ms =? 500
        | _ => false
        end
  then (Ok (iter_of_list [Fixtures.seg " heard"], mkInfo (lit "en") f32_top), S n)
  else (Raise (mkExn (lit "TypeError") (lit "unexpected keyword arguments")), S n).

(** A model interrupted during the call. *)
Definition interrupted_model (n : nat) (audio : list Np.float32) (kw : TranscribeKwargs)
  : Py (SegmentIter * TranscriptionInfo) * nat :=
  (Raise KeyboardInterrupt, S n).

(** A constructor that loads every model but the one named by the empty
    string, and an environment that sets two of the three variables. *)
Definition fake_loader (size dev ct : str) : Py nat :=
  match size with
  | [] => Raise (mkExn (lit "ValueError") (lit "Invalid model size"))
  | _ => Ok 0%nat
  end.

Definition env_small_cuda : gmap str str :=
  {[ lit "MODEL_SIZE" := lit "small"; lit "DEVICE" := lit "cuda" ]}.

(** * Properties *)

(** ** Decoding of the PCM buffer *)

Lemma all_from_spec (P : Z -> bool) (n : nat) :
  forall z0, all_from P n z0 = true ->
  forall z, z0 <= z < z0 + Z.of_nat n -> P z = true.
Proof.
  induction n as [|n IH]; intros z0 Hall z Hz.
  - lia.
  - cbn [all_from] in Hall. apply andb_prop in Hall as [Hz0 Hrest].
    destruct (Z.eq_dec z z0) as [->|Hne]; [exact Hz0|].
    apply (IH (z0 + 1) Hrest). lia.
Qed.

Lemma sample_chk_int16 : all_from sample_chk (Nat.pow 2 16) (-32768) = true.
Proof. vm_compute. reflexivity. Qed.

Lemma sample_chk_ok (z : Z) : -32768 <= z <= 32767 -> sample_chk z = true.
Proof.
  intros Hz. apply (all_from_spec sample_chk _ _ sample_chk_int16).
  change (Z.of_nat (Nat.pow 2 16)) with 65536. lia.
Qed.

Lemma byte_val_range (b : Byte.byte) : 0 <= Np.byte_val b < 256.
Proof.
  unfold Np.byte_val. pose proof (Byte.to_N_bounded b). lia.
Qed.

Lemma int16_of_bytes_range (bo : Np.byteorder) (b0 b1 : Byte.byte) :
  -32768 <= Np.int16_of_bytes bo b0 b1 <= 32767.
Proof.
  pose proof (byte_val_range b0). pose proof (byte_val_range b1).
  unfold Np.int16_of_bytes, Np.signed16.
  destruct bo;
    match goal with |- context [?u <? 32768] => destruct (Z.ltb_spec u 32768) end; lia.
Qed.

(** Induction over a buffer two bytes at a time. *)
Lemma pair_ind (A : Type) (P : list A -> Prop) :
  P [] -> (forall a, P [a]) ->
  (forall a b l, P l -> P (a :: b :: l)) ->
  forall l, P l.
Proof.
  intros H0 H1 H2.
  assert (H : forall l, P l /\ forall a, P (a :: l)).
  { induction l as [|x l [IHl IHxl]]; split; auto. }
  intros l. apply H.
Qed.

Lemma int16_items_lookup (buf : list Byte.byte) :
  forall i, Np.int16_items Np.LittleEndian buf !! i = le_int16_at buf i.
Proof.
  induction buf as [|b|b0 b1 rest IH] using pair_ind; intros i.
  - unfold le_int16_at. cbn. reflexivity.
  - unfold le_int16_at. destruct i as [|i]; cbn; [reflexivity|].
    replace (i + S (i + 0))%nat with (S (2 * i)) by lia. cbn.
    destruct (@nil Byte.byte !! (2 * i)%nat); reflexivity.
  - destruct i as [|i].
    + unfold le_int16_at. cbn [Np.int16_items Np.int16_of_bytes Np.signed16].
      cbn. f_equal. unfold Np.signed16.
      change (2 ^ 15) with 32768. change (2 ^ 16) with 65536.
      destruct (Z.ltb_spec (Np.byte_val b0 + 256 * Np.byte_val b1) 32768);
        destruct (Z.leb_spec 32768 (Np.byte_val b0 + 256 * Np.byte_val b1)); lia.
    + cbn [Np.int16_items]. rewrite lookup_cons_ne_0 by lia. cbn [Nat.pred].
      rewrite IH. unfold le_int16_at.
      replace (2 * S i)%nat with (S (S (2 * i))) by lia.
      replace (S (S (2 * i)) + 1)%nat with (S (S (2 * i + 1))) by lia.
      reflexivity.
Qed.

Lemma int16_items_length (bo : Np.byteorder) (buf : list Byte.byte) :
  length (Np.int16_items bo buf) = (length buf / 2)%nat.
Proof.
  induction buf as [|b|b0 b1 rest IH] using pair_ind.
  - reflexivity.
  - reflexivity.
  - cbn [Np.int16_items length]. rewrite IH.
    change (S (S (length rest))) with (1 * 2 + length rest)%nat.
    rewrite Nat.div_add_l by lia. lia.
Qed.

Lemma int16_items_range (bo : Np.byteorder) (buf : list Byte.byte) (i : nat) (z : Z) :
  Np.int16_items bo buf !! i = Some z -> -32768 <= z <= 32767.
Proof.
  revert i. induction buf as [|b|b0 b1 rest IH] using pair_ind; intros i Hi.
  - discriminate.
  - discriminate.
  - destruct i as [|i]; cbn in Hi.
    + injection Hi as <-. apply int16_of_bytes_range.
    + eapply IH, Hi.
Qed.

Lemma frombuffer_even (bo : Np.byteorder) (buf : list Byte.byte) :
  Nat.even (length buf) = true ->
  Np.frombuffer_int16 bo buf = Ok (Np.int16_items bo buf).
Proof.
  intros He. unfold Np.frombuffer_int16.
  apply Nat.even_spec in He. destruct He as [k Hk]. rewrite Hk.
  replace (Z.of_nat (2 * k) mod 2) with 0; [reflexivity|].
  rewrite Nat2Z.inj_mul, Z.mul_comm, Z.mod_mul; lia.
Qed.

Lemma frombuffer_odd (bo : Np.byteorder) (buf : list Byte.byte) :
  Nat.odd (length buf) = true ->
  Np.frombuffer_int16 bo buf = Raise ValueError_buffer_size.
Proof.
  intros Ho. unfold Np.frombuffer_int16.
  apply Nat.odd_spec in Ho. destruct Ho as [k Hk]. rewrite Hk.
  replace (Z.of_nat (2 * k + 1) mod 2) with 1; [reflexivity|].
  rewrite Nat2Z.inj_add, Nat2Z.inj_mul, Z.add_comm, Z.mul_comm, Z.mod_add; [reflexivity|lia].
Qed.

Lemma decode_even (bo : Np.byteorder) (buf : list Byte.byte) :
  Nat.even (length buf) = true ->
  Np.decode bo buf = Ok (map sample_of (Np.int16_items bo buf)).
Proof.
  intros He. unfold Np.decode. rewrite (frombuffer_even bo buf He).
  unfold Np.true_divide, Np.astype_float32. rewrite map_map. reflexivity.
Qed.

Lemma decode_odd (bo : Np.byteorder) (buf : list Byte.byte) :
  Nat.odd (length buf) = true ->
  Np.decode bo buf = Raise ValueError_buffer_size.
Proof.
  intros Ho. unfold Np.decode. rewrite (frombuffer_odd bo buf Ho). reflexivity.
Qed.

Lemma sample_facts (z : Z) :
  -32768 <= z <= 32767 ->
  is_finite (sample_of z) = true
  /\ (SF2Q (sample_of z) == Qmake z 32768)%Q
  /\ SFleb f32_minus_one (sample_of z) = true
  /\ SFleb (sample_of z) f32_top = true
  /\ SFleb (sample_of z) f32_one = true
  /\ SFeqb (sample_of z) f32_one = false
  /\ (SFeqb (sample_of z) f32_minus_one = true <-> z = -32768).
Proof.
  intros Hz. pose proof (sample_chk_ok z Hz) as H. unfold sample_chk in H.
  cbv zeta in H.
  rewrite !andb_true_iff in H.
  destruct H as ((((((H1 & H2) & H3) & H4) & H5) & H6) & H7).
  apply Bool.eqb_prop in H7.
  repeat split; try assumption.
  - apply Qeq_bool_iff. assumption.
  - apply negb_true_iff. assumption.
  - intros He. rewrite He in H7.
    symmetry in H7. apply Z.eqb_eq in H7. exact H7.
  - intros ->. rewrite H7. reflexivity.
Qed.

Lemma sample_Q_bounds (z : Z) (q : Q) :
  -32768 <= z <= 32767 -> (q == Qmake z 32768)%Q ->
  (-1 <= q)%Q /\ (q <= 1)%Q /\ (q <= Qmake 32767 32768)%Q.
Proof.
  intros Hz Hq. rewrite Hq. unfold Qle. cbn [Qnum Qden]. lia.
Qed.

(** C2. For a buffer of even length n, decoding gives n/2 samples; the
    i-th is the float32 quotient of the i-th little-endian signed 16-bit
    integer of the buffer by 32768.0, which is exactly that integer over
    32768, and it lies in [-1.0, 1.0]. *)
Theorem decode_even_length (buf : list Byte.byte) :
  Nat.even (length buf) = true ->
  exists samples,
    Np.decode Np.LittleEndian buf = Ok samples
    /\ length samples = (length buf / 2)%nat
    /\ forall i, (i < length buf / 2)%nat ->
       exists z s,
         le_int16_at buf i = Some z
         /\ samples !! i = Some s
         /\ s = SFdiv Np.prec32 Np.emax32 (Np.float32_of_Z z) (Np.float32_of_Z 32768)
         /\ is_finite s = true
         /\ (SF2Q s == Qmake z 32768)%Q
         /\ (-1 <= SF2Q s)%Q /\ (SF2Q s <= 1)%Q
         /\ SFleb f32_minus_one s = true /\ SFleb s f32_one = true.
Proof.
  intros He. exists (map sample_of (Np.int16_items Np.LittleEndian buf)).
  split; [apply decode_even, He|].
  split; [rewrite length_map; apply int16_items_length|].
  intros i Hi.
  destruct (Np.int16_items Np.LittleEndian buf !! i) as [z|] eqn:Hz.
  - exists z, (sample_of z).
    pose proof (int16_items_range _ _ _ _ Hz) as Hr.
    destruct (sample_facts z Hr) as (Hf & Hq & Hlo & _ & Hhi & _).
    destruct (sample_Q_bounds z _ Hr Hq) as (Hq1 & Hq2 & _).
    rewrite <- int16_items_lookup.
    rewrite list_lookup_fmap, Hz.
    repeat split; assumption.
  - apply lookup_ge_None in Hz.
    rewrite int16_items_length in Hz. lia.
Qed.

Lemma decode_even_length_witness :
  Nat.even (length [Byte.x00; Byte.x80; Byte.xff; Byte.x7f]) = true
  /\ exists samples,
    Np.decode Np.LittleEndian [Byte.x00; Byte.x80; Byte.xff; Byte.x7f] = Ok samples
    /\ length samples = (length [Byte.x00; Byte.x80; Byte.xff; Byte.x7f] / 2)%nat
    /\ forall i, (i < length [Byte.x00; Byte.x80; Byte.xff; Byte.x7f] / 2)%nat ->
       exists z s,
         le_int16_at [Byte.x00; Byte.x80; Byte.xff; Byte.x7f] i = Some z
         /\ samples !! i = Some s
         /\ s = SFdiv Np.prec32 Np.emax32 (Np.float32_of_Z z) (Np.float32_of_Z 32768)
         /\ is_finite s = true
         /\ (SF2Q s == Qmake z 32768)%Q
         /\ (-1 <= SF2Q s)%Q /\ (SF2Q s <= 1)%Q
         /\ SFleb f32_minus_one s = true /\ SFleb s f32_one = true.
Proof.
  split; [reflexivity|].
  apply (decode_even_length [Byte.x00; Byte.x80; Byte.xff; Byte.x7f]). reflexivity.
Defined.

(** C9. An even-length buffer of n bytes decodes to n/2 samples, one for
    each of its integers, and each lies in [-1.0, 32767/32768]: 1.0 is
    never a sample, and the i-th sample is -1.0 exactly when the i-th
    integer of the buffer is -32768. *)
Theorem decode_tight_range (buf : list Byte.byte) :
  Nat.even (length buf) = true ->
  exists samples,
    Np.decode Np.LittleEndian buf = Ok samples
    /\ length samples = (length buf / 2)%nat
    /\ (forall i, (i < length buf / 2)%nat ->
        exists z s,
          le_int16_at buf i = Some z
          /\ samples !! i = Some s
          /\ SFleb f32_minus_one s = true
          /\ SFleb s f32_top = true
          /\ (-1 <= SF2Q s)%Q /\ (SF2Q s <= Qmake 32767 32768)%Q
          /\ SFeqb s f32_one = false
          /\ (SFeqb s f32_minus_one = true <-> z = -32768))
    /\ forall i s, samples !! i = Some s ->
       SFleb f32_minus_one s = true
       /\ SFleb s f32_top = true
       /\ (-1 <= SF2Q s)%Q /\ (SF2Q s <= Qmake 32767 32768)%Q
       /\ SFeqb s f32_one = false
       /\ (SFeqb s f32_minus_one = true <-> le_int16_at buf i = Some (-32768)).
Proof.
  intros He. exists (map sample_of (Np.int16_items Np.LittleEndian buf)).
  split; [apply decode_even, He|].
  split; [rewrite length_map; apply int16_items_length|].
  split.
  - intros i Hi.
    destruct (Np.int16_items Np.LittleEndian buf !! i) as [z|] eqn:Hz.
    + exists z, (sample_of z).
      pose proof (int16_items_range _ _ _ _ Hz) as Hr.
      destruct (sample_facts z Hr) as (_ & Hq & Hlo & Htop & _ & Hne & Hm).
      destruct (sample_Q_bounds z _ Hr Hq) as (Hq1 & _ & Hq3).
      rewrite <- int16_items_lookup. rewrite list_lookup_fmap, Hz.
      repeat split; try assumption; apply Hm.
    + apply lookup_ge_None in Hz. rewrite int16_items_length in Hz. lia.
  - intros i s Hs. rewrite list_lookup_fmap in Hs.
    destruct (Np.int16_items Np.LittleEndian buf !! i) as [z|] eqn:Hz; [|discriminate].
    cbn in Hs. injection Hs as <-.
    pose proof (int16_items_range _ _ _ _ Hz) as Hr.
    destruct (sample_facts z Hr) as (_ & Hq & Hlo & Htop & _ & Hne & Hm).
    destruct (sample_Q_bounds z _ Hr Hq) as (Hq1 & _ & Hq3).
    rewrite <- int16_items_lookup, Hz.
    repeat split; try assumption.
    + intros H. f_equal. apply Hm, H.
    + intros H. apply Hm. congruence.
Qed.

Lemma decode_tight_range_witness :
  Nat.even (length [Byte.x00; Byte.x80; Byte.xff; Byte.x7f]) = true
  /\ exists samples,
    Np.decode Np.LittleEndian [Byte.x00; Byte.x80; Byte.xff; Byte.x7f] = Ok samples
    /\ length samples = (length [Byte.x00; Byte.x80; Byte.xff; Byte.x7f] / 2)%nat
    /\ (forall i, (i < length [Byte.x00; Byte.x80; Byte.xff; Byte.x7f] / 2)%nat ->
        exists z s,
          le_int16_at [Byte.x00; Byte.x80; Byte.xff; Byte.x7f] i = Some z
          /\ samples !! i = Some s
          /\ SFleb f32_minus_one s = true
          /\ SFleb s f32_top = true
          /\ (-1 <= SF2Q s)%Q /\ (SF2Q s <= Qmake 32767 32768)%Q
          /\ SFeqb s f32_one = false
          /\ (SFeqb s f32_minus_one = true <-> z = -32768))
    /\ forall i s, samples !! i = Some s ->
       SFleb f32_minus_one s = true
       /\ SFleb s f32_top = true
       /\ (-1 <= SF2Q s)%Q /\ (SF2Q s <= Qmake 32767 32768)%Q
       /\ SFeqb s f32_one = false
       /\ (SFeqb s f32_minus_one = true
           <-> le_int16_at [Byte.x00; Byte.x80; Byte.xff; Byte.x7f] i = Some (-32768)).
Proof.
  split; [reflexivity|].
  apply (decode_tight_range [Byte.x00; Byte.x80; Byte.xff; Byte.x7f]). reflexivity.
Defined.

(** The constants of the statements are -1, 1 and 32767/32768. *)
Example f32_constants :
  (SF2Q f32_minus_one == -1)%Q /\ (SF2Q f32_one == 1)%Q
  /\ (SF2Q f32_top == Qmake 32767 32768)%Q
  /\ (SF2Q Np.f32768 == 32768)%Q.
Proof. repeat split. Qed.

(** Both ends of the range are reached: bytes 00 80 give -1.0 and bytes
    ff 7f give 32767/32768. *)
Example decode_extremes :
  Np.decode Np.LittleEndian [Byte.x00; Byte.x80; Byte.xff; Byte.x7f]
  = Ok [f32_minus_one; f32_top].
Proof. vm_compute. reflexivity. Qed.

(** On a big-endian host the same bytes read differently. *)
Example decode_big_endian :
  Np.decode Np.BigEndian [Byte.x00; Byte.x80]
  = Ok [SFdiv Np.prec32 Np.emax32 (Np.float32_of_Z 128) Np.f32768].
Proof. vm_compute. reflexivity. Qed.

(** ** Assembly of the segments *)

Lemma join_space_separated (texts : list str) :
  join (lit " ") texts = space_separated texts.
Proof.
  unfold space_separated.
  induction texts as [|t texts IH]; [reflexivity|].
  destruct texts as [|t' texts].
  - cbn. rewrite app_nil_r. reflexivity.
  - change (join (lit " ") (t :: t' :: texts))
      with (t ++ lit " " ++ join (lit " ") (t' :: texts)).
    rewrite IH. reflexivity.
Qed.

Lemma lstrip_split (s : str) :
  exists pre, s = pre ++ lstrip s /\ all_space pre.
Proof.
  induction s as [|c s (pre & Hs & Hpre)].
  - exists []. split; [reflexivity|constructor].
  - cbn [lstrip]. destruct (isspace c) eqn:Hc.
    + exists (c :: pre). split; [cbn; congruence|constructor; assumption].
    + exists []. split; [reflexivity|constructor].
Qed.

Lemma lstrip_no_leading (s : str) : no_leading_space (lstrip s).
Proof.
  induction s as [|c s IH]; [exact I|].
  cbn [lstrip]. destruct (isspace c) eqn:Hc; [exact IH|exact Hc].
Qed.

Lemma rstrip_split (s : str) :
  exists post, s = rstrip s ++ post /\ all_space post.
Proof.
  destruct (lstrip_split (rev s)) as (pre & Hs & Hpre).
  exists (rev pre). split.
  - unfold rstrip. rewrite <- rev_app_distr, <- Hs, rev_involutive. reflexivity.
  - unfold all_space. apply Forall_forall. intros c Hc.
    apply list_elem_of_In, in_rev, list_elem_of_In in Hc.
    revert c Hc. apply Forall_forall. exact Hpre.
Qed.

Lemma rstrip_no_trailing (s : str) : no_trailing_space (rstrip s).
Proof.
  unfold no_trailing_space, rstrip. rewrite rev_involutive.
  apply lstrip_no_leading.
Qed.

Lemma rstrip_keeps_head (s : str) :
  no_leading_space s -> no_leading_space (rstrip s).
Proof.
  intros Hs. destruct (rstrip_split s) as (post & Heq & _).
  destruct (rstrip s) as [|c r]; [exact I|].
  rewrite Heq in Hs. exact Hs.
Qed.

(** [strip] removes a run of whitespace at each end, and nothing else. *)
Lemma strip_spec (s : str) :
  exists pre post,
    s = pre ++ strip s ++ post
    /\ all_space pre /\ all_space post
    /\ no_leading_space (strip s) /\ no_trailing_space (strip s).
Proof.
  destruct (lstrip_split s) as (pre & Hs & Hpre).
  destruct (rstrip_split (lstrip s)) as (post & Ht & Hpost).
  exists pre, post. unfold strip. repeat split.
  - rewrite <- Ht. exact Hs.
  - exact Hpre.
  - exact Hpost.
  - apply rstrip_keeps_head, lstrip_no_leading.
  - apply rstrip_no_trailing.
Qed.

Lemma for_segments_list (segs : list Segment) :
  forall acc, for_segments (iter_of_list segs) acc = Ok (acc ++ map text segs).
Proof.
  induction segs as [|s segs IH]; intros acc; cbn [iter_of_list for_segments map].
  - rewrite app_nil_r. reflexivity.
  - rewrite IH, <- app_assoc. reflexivity.
Qed.

Lemma assemble_list (segs : list Segment) :
  assemble (iter_of_list segs) = Ok (strip (join (lit " ") (map text segs))).
Proof.
  unfold assemble. rewrite for_segments_list. reflexivity.
Qed.

(** C5. From a finite sequence of segments the assembled text is the
    texts in the order received with one space between neighbours, less
    the whitespace at its two ends; two segments hello and world give
    hello world, and no segments give the empty string, no error. *)
Theorem assemble_joins_and_strips :
  (forall segs : list Segment,
     exists full_text pre post,
       assemble (iter_of_list segs) = Ok full_text
       /\ space_separated (map text segs) = pre ++ full_text ++ post
       /\ all_space pre /\ all_space post
       /\ no_leading_space full_text /\ no_trailing_space full_text)
  /\ (forall s0 e0 s1 e1,
        assemble (iter_of_list [mkSegment s0 e0 (lit "hello"); mkSegment s1 e1 (lit "world")])
        = Ok (lit "hello world"))
  /\ assemble (iter_of_list []) = Ok (lit "").
Proof.
  split; [|split].
  - intros segs.
    destruct (strip_spec (join (lit " ") (map text segs)))
      as (pre & post & Heq & Hpre & Hpost & Hl & Ht).
    exists (strip (join (lit " ") (map text segs))), pre, post.
    split; [apply assemble_list|].
    rewrite <- join_space_separated. auto.
  - intros. reflexivity.
  - reflexivity.
Qed.

(** Inner whitespace and order are kept; only the ends are trimmed. *)
Example assemble_whisper_style :
  assemble (iter_of_list [mkSegment (S754_zero false) (S754_zero false) (lit " Hello there.");
                          mkSegment (S754_zero false) (S754_zero false) (lit " General Kenobi. ")])
  = Ok (lit "Hello there.  General Kenobi.").
Proof. reflexivity. Qed.

(** ** The request handlers *)



Section HandlerProperties.

Context {ModelState : Type}.
Variable WhisperModel : str -> str -> str -> Py ModelState.
Variable model_transcribe :
  ModelState -> list Np.float32 -> TranscribeKwargs ->
  Py (SegmentIter * TranscriptionInfo) * ModelState.
Variable host : Np.byteorder.

Local Abbreviation transcribe_try := (transcribe_try ModelState model_transcribe host).
Local Abbreviation transcribe := (transcribe ModelState model_transcribe host).
Local Abbreviation transcribe_request_try :=
  (transcribe_request_try ModelState model_transcribe host).
Local Abbreviation transcribe_request :=
  (transcribe_request ModelState model_transcribe host).
Local Abbreviation dispatch := (dispatch ModelState model_transcribe host).
Local Abbreviation serve := (serve ModelState model_transcribe host).
Local Abbreviation startup := (startup ModelState WhisperModel).
Local Abbreviation after_call := (after_call model_transcribe).

(** The [try] block, path by path. *)
Lemma transcribe_try_paths (buf : list Byte.byte) (st : Proc ModelState) :
  transcribe_try buf st =
  match Np.decode host buf with
  | Raise e => (Raise e, st)
  | Ok audio =>
      match fst (model_transcribe (model st) audio source_kwargs) with
      | Raise e => (Raise e, after_call st audio)
      | Ok (segments, info) =>
          match assemble segments with
          | Raise e => (Raise e, after_call st audio)
          | Ok full_text => (Ok (success_dict full_text info), after_call st audio)
          end
      end
  end.
Proof.
  unfold WhisperServer.transcribe_try, bind, lift, ret, call_model, WhisperServer.after_call.
  destruct (Np.decode host buf) as [audio|e]; [|reflexivity].
  destruct (model_transcribe (model st) audio source_kwargs) as [[[segments info]|e] m'];
    cbn [fst snd]; [|reflexivity].
  destruct (assemble segments); reflexivity.
Qed.

(** The handler is the [try] block with every raised instance of
    [Exception] turned into the error dict. *)
Lemma transcribe_paths (buf : list Byte.byte) (st : Proc ModelState) :
  transcribe buf st =
  match transcribe_try buf st with
  | (Ok d, st') => (Ok d, st')
  | (Raise e, st') => (if exn_is_exception e then Ok (error_dict e) else Raise e, st')
  end.
Proof.
  unfold WhisperServer.transcribe, try_except, ret.
  destruct (transcribe_try buf st) as [[d|e] st']; [reflexivity|].
  destruct (exn_is_exception e); reflexivity.
Qed.

(** The whole handler: the await of the body, then the handler on the
    body read. *)
Lemma transcribe_request_try_paths (request : Request) (st : Proc ModelState) :
  transcribe_request_try request st =
  match request_body request with
  | Ok audio_data => transcribe_try audio_data st
  | Raise e => (Raise e, st)
  end.
Proof.
  unfold WhisperServer.transcribe_request_try, bind, lift.
  destruct (request_body request); reflexivity.
Qed.

Lemma transcribe_request_paths (request : Request) (st : Proc ModelState) :
  transcribe_request request st =
  match request_body request with
  | Ok audio_data => transcribe audio_data st
  | Raise e => (if exn_is_exception e then Ok (error_dict e) else Raise e, st)
  end.
Proof.
  unfold WhisperServer.transcribe_request, WhisperServer.transcribe, try_except, ret.
  rewrite transcribe_request_try_paths.
  destruct (request_body request) as [audio_data|e]; [reflexivity|].
  destruct (exn_is_exception e); reflexivity.
Qed.




(** C3. A body of odd length is refused by the decoding, which returns
    no samples at all; the handler answers with the failure dict (empty
    text, is_final true, the message of the error) and the model is not
    called: the process, its call log included, is unchanged. *)
Theorem odd_length_rejected (buf : list Byte.byte) (st : Proc ModelState) :
  Nat.odd (length buf) = true ->
  Np.frombuffer_int16 host buf = Raise MalformedAudioError
  /\ Np.decode host buf = Raise MalformedAudioError
  /\ (forall samples, Np.decode host buf <> Ok samples)
  /\ transcribe buf st = (Ok (error_dict MalformedAudioError), st)
  /\ calls (snd (transcribe buf st)) = calls st
  /\ model (snd (transcribe buf st)) = model st
  /\ error_dict MalformedAudioError !! k_text = Some (VStr (lit ""))
  /\ error_dict MalformedAudioError !! k_is_final = Some (VBool true)
  /\ error_dict MalformedAudioError !! k_error
     = Some (VStr (lit "buffer size must be a multiple of element size")).
Proof.
  intros Ho.
  assert (Hd : Np.decode host buf = Raise MalformedAudioError)
    by (apply decode_odd, Ho).
  assert (Ht : transcribe buf st = (Ok (error_dict MalformedAudioError), st)).
  { rewrite transcribe_paths, transcribe_try_paths, Hd. reflexivity. }
  split; [apply frombuffer_odd, Ho|].
  split; [exact Hd|].
  split; [intros samples; rewrite Hd; discriminate|].
  rewrite Ht. repeat split; reflexivity.
Qed.

(** C4. The empty body decodes to no samples, without error, and they
    are handed to the model; handled there as no speech detected (the
    model answers with no segment), the handler returns the success dict
    with text (empty), is_final (true), the language fields of the
    model, and no error. *)
Theorem empty_buffer_no_speech (st : Proc ModelState) (info : TranscriptionInfo)
        (m' : ModelState) :
  model_transcribe (model st) [] source_kwargs = (Ok (IterStop, info), m') ->
  Np.decode host [] = Ok []
  /\ transcribe [] st = (Ok (success_dict (lit "") info), after_call st [])
  /\ success_dict (lit "") info !! k_text = Some (VStr (lit ""))
  /\ success_dict (lit "") info !! k_is_final = Some (VBool true)
  /\ success_dict (lit "") info !! k_error = None
  /\ calls (after_call st []) = calls st ++ [mkCall [] source_kwargs].
Proof.
  intros Hm.
  assert (Hd : Np.decode host [] = Ok []) by reflexivity.
  split; [exact Hd|]. split.
  - rewrite transcribe_paths, transcribe_try_paths, Hd, Hm. reflexivity.
  - repeat split; reflexivity.
Qed.

Lemma transcribe_calls (buf : list Byte.byte) (st : Proc ModelState) :
  calls (snd (transcribe buf st)) =
  match Np.decode host buf with
  | Ok audio => calls st ++ [mkCall audio source_kwargs]
  | Raise _ => calls st
  end.
Proof.
  rewrite transcribe_paths, transcribe_try_paths.
  destruct (Np.decode host buf) as [audio|e]; [|reflexivity].
  destruct (fst (model_transcribe (model st) audio source_kwargs))
    as [[segments info]|e]; [|reflexivity].
  destruct (assemble segments); reflexivity.
Qed.

Lemma dispatch_calls (r : Req) (st : Proc ModelState) :
  exists new,
    calls (snd (dispatch r st)) = calls st ++ new
    /\ Forall (fun c => call_kwargs c = source_kwargs) new.
Proof.
  destruct r as [buf|].
  - cbn [WhisperServer.dispatch]. rewrite transcribe_calls.
    destruct (Np.decode host buf) as [audio|e].
    + exists [mkCall audio source_kwargs]. split; [reflexivity|].
      constructor; [reflexivity|constructor].
    + exists []. rewrite app_nil_r. split; [reflexivity|constructor].
  - exists []. rewrite app_nil_r. split; [reflexivity|constructor].
Qed.

Lemma serve_calls (rs : list Req) :
  forall st : Proc ModelState,
  exists new,
    calls (snd (serve rs st)) = calls st ++ new
    /\ Forall (fun c => call_kwargs c = source_kwargs) new.
Proof.
  induction rs as [|r rs IH]; intros st.
  - exists []. rewrite app_nil_r. split; [reflexivity|constructor].
  - cbn [WhisperServer.serve].
    destruct (dispatch_calls r st) as (new1 & H1 & F1).
    destruct (dispatch r st) as [a st1]. cbn [snd] in H1.
    destruct (IH st1) as (new2 & H2 & F2).
    destruct (serve rs st1) as [answers st2]. cbn [snd] in *.
    exists (new1 ++ new2). split.
    + rewrite H2, H1, app_assoc. reflexivity.
    + apply Forall_app. split; assumption.
Qed.

(** C6. On every request whose body decodes the model is called, once,
    on the decoded samples and with the keyword arguments language en,
    beam_size 5, vad_filter true, min_silence_duration_ms 500: the
    process afterwards holds the state that very call left in the model
    and its record in the log, and the answer is made from what that
    call returned; when it returned segments that assemble, the answer
    carries the language and the probability the model reported. Over a
    run of requests every call has those keyword arguments. *)
Theorem model_called_with_fixed_options
        (buf : list Byte.byte) (st : Proc ModelState) (audio : list Np.float32) :
  Np.decode host buf = Ok audio ->
  kw_language source_kwargs = lit "en"
  /\ kw_beam_size source_kwargs = 5
  /\ kw_vad_filter source_kwargs = true
  /\ kw_vad_parameters source_kwargs = {[ lit "min_silence_duration_ms" := VInt 500 ]}
  /\ snd (transcribe buf st)
     = mkProc (model_size st) (device st) (compute_type st)
              (snd (model_transcribe (model st) audio source_kwargs))
              (calls st ++ [mkCall audio source_kwargs])
  /\ match fst (model_transcribe (model st) audio source_kwargs) with
     | Ok (segments, info) =>
         match assemble segments with
         | Ok full_text =>
             fst (transcribe buf st) = Ok (success_dict full_text info)
             /\ success_dict full_text info !! k_language = Some (VStr (language info))
             /\ success_dict full_text info !! k_language_probability
                = Some (VFloat (language_probability info))
             /\ success_dict full_text info !! k_error = None
         | Raise e =>
             fst (transcribe buf st)
             = (if exn_is_exception e then Ok (error_dict e) else Raise e)
         end
     | Raise e =>
         fst (transcribe buf st)
         = (if exn_is_exception e then Ok (error_dict e) else Raise e)
     end
  /\ (forall rs, exists new,
        calls (snd (serve rs st)) = calls st ++ new
        /\ Forall (fun c => call_kwargs c = source_kwargs) new).
Proof.
  intros Hd.
  do 4 (split; [reflexivity|]).
  rewrite transcribe_paths, transcribe_try_paths, Hd.
  split; [|split; [|intros rs; apply serve_calls]].
  - destruct (fst (model_transcribe (model st) audio source_kwargs))
      as [[segments info]|e]; [|reflexivity].
    destruct (assemble segments); reflexivity.
  - destruct (fst (model_transcribe (model st) audio source_kwargs))
      as [[segments info]|e]; [|reflexivity].
    destruct (assemble segments) as [full_text|e]; [|reflexivity].
    repeat split; reflexivity.
Qed.

Lemma dispatch_globals (r : Req) (st : Proc ModelState) :
  model_size (snd (dispatch r st)) = model_size st
  /\ device (snd (dispatch r st)) = device st
  /\ compute_type (snd (dispatch r st)) = compute_type st.
Proof.
  destruct r as [buf|]; [|repeat split; reflexivity].
  cbn [WhisperServer.dispatch]. rewrite transcribe_paths, transcribe_try_paths.
  destruct (Np.decode host buf) as [audio|e]; [|repeat split; reflexivity].
  destruct (fst (model_transcribe (model st) audio source_kwargs))
    as [[segments info]|e]; [|repeat split; reflexivity].
  destruct (assemble segments); repeat split; reflexivity.
Qed.

Lemma serve_globals (rs : list Req) :
  forall st : Proc ModelState,
    model_size (snd (serve rs st)) = model_size st
    /\ device (snd (serve rs st)) = device st
    /\ compute_type (snd (serve rs st)) = compute_type st.
Proof.
  induction rs as [|r rs IH]; intros st; [repeat split; reflexivity|].
  cbn [WhisperServer.serve].
  destruct (dispatch_globals r st) as (H1 & H2 & H3).
  destruct (dispatch r st) as [a st1]. cbn [snd] in *.
  destruct (IH st1) as (G1 & G2 & G3).
  destruct (serve rs st1) as [answers st2]. cbn [snd] in *.
  repeat split; congruence.
Qed.

Lemma startup_globals (environ : gmap str str) (st0 : Proc ModelState) :
  startup environ = Ok st0 ->
  model_size st0 = getenv environ (lit "MODEL_SIZE") (lit "base")
  /\ device st0 = getenv environ (lit "DEVICE") (lit "cpu")
  /\ compute_type st0 = getenv environ (lit "COMPUTE_TYPE") (lit "int8")
  /\ calls st0 = [].
Proof.
  unfold WhisperServer.startup.
  destruct (WhisperModel _ _ _) as [m|e]; [|discriminate].
  intros [= <-]. repeat split; reflexivity.
Qed.

(** C8. The readiness handler returns status ok with the model size and
    the device of the process, leaves the process as it is and cannot
    raise; after any requests, failed ones included, it returns the same
    dict, whose values are those read from the environment at startup. *)
Theorem health_reports_configuration (st : Proc ModelState) (rs : list Req) :
  health st
  = (Ok {[ k_status := VStr (lit "ok");
           k_model := VStr (model_size st);
           k_device := VStr (device st) ]}, st)
  /\ fst (health (snd (serve rs st))) = fst (health st)
  /\ model_size (snd (serve rs st)) = model_size st
  /\ device (snd (serve rs st)) = device st
  /\ (forall environ : gmap str str,
        match startup environ with
        | Ok st0 =>
            fst (health (snd (serve rs st0)))
            = Ok {[ k_status := VStr (lit "ok");
                    k_model := VStr (getenv environ (lit "MODEL_SIZE") (lit "base"));
                    k_device := VStr (getenv environ (lit "DEVICE") (lit "cpu")) ]}
        | Raise _ => True
        end).
Proof.
  destruct (serve_globals rs st) as (G1 & G2 & _).
  split; [reflexivity|].
  split; [unfold WhisperServer.health, bind, gets, ret; cbn [fst]; rewrite G1, G2; reflexivity|].
  split; [exact G1|]. split; [exact G2|].
  intros environ. destruct (startup environ) as [st0|e] eqn:Hs; [|exact I].
  destruct (startup_globals _ _ Hs) as (S1 & S2 & _).
  destruct (serve_globals rs st0) as (K1 & K2 & _).
  unfold WhisperServer.health, bind, gets, ret; cbn [fst].
  rewrite K1, K2, S1, S2. reflexivity.
Qed.

Lemma transcribe_answer_stateless :
  deterministic_model model_transcribe ->
  forall (buf : list Byte.byte) (st st' : Proc ModelState),
    fst (transcribe buf st) = fst (transcribe buf st').
Proof.
  intros Hdet buf st st'.
  rewrite !transcribe_paths, !transcribe_try_paths.
  destruct (Np.decode host buf) as [audio|e]; [|reflexivity].
  rewrite (Hdet (model st) (model st')).
  destruct (fst (model_transcribe (model st') audio source_kwargs))
    as [[segments info]|e]; [|reflexivity].
  destruct (assemble segments); reflexivity.
Qed.

Lemma serve_lookup (rs : list Req) :
  forall (st : Proc ModelState) (i : nat) (r : Req),
    rs !! i = Some r ->
    exists st_i, fst (serve rs st) !! i = Some (fst (dispatch r st_i)).
Proof.
  induction rs as [|r0 rs IH]; intros st i r Hi; [discriminate|].
  cbn [WhisperServer.serve].
  destruct (dispatch r0 st) as [a st1] eqn:Hd.
  specialize (IH st1).
  destruct (serve rs st1) as [answers st2]. cbn [fst] in *.
  destruct i as [|i].
  - injection Hi as <-. exists st. rewrite Hd. reflexivity.
  - cbn in Hi. destruct (IH i r Hi) as (st_i & Hst). exists st_i. exact Hst.
Qed.

(** C10. With a model that answers from its arguments alone, two
    requests of one run that carry the same body get the same answer,
    wherever they stand in the run; it is the answer a fresh call would
    give. *)
Theorem identical_buffers_identical_answers :
  deterministic_model model_transcribe ->
  forall (st : Proc ModelState) (rs : list Req) (i j : nat) (buf : list Byte.byte),
    rs !! i = Some (PostTranscribe buf) ->
    rs !! j = Some (PostTranscribe buf) ->
    exists a,
      fst (serve rs st) !! i = Some a
      /\ fst (serve rs st) !! j = Some a
      /\ a = fst (transcribe buf st).
Proof.
  intros Hdet st rs i j buf Hi Hj.
  destruct (serve_lookup rs st i _ Hi) as (st_i & Hai).
  destruct (serve_lookup rs st j _ Hj) as (st_j & Haj).
  cbn [WhisperServer.dispatch] in Hai, Haj.
  exists (fst (transcribe buf st)).
  rewrite Hai, Haj.
  rewrite (transcribe_answer_stateless Hdet buf st_i st).
  rewrite (transcribe_answer_stateless Hdet buf st_j st).
  auto.
Qed.

End HandlerProperties.

(** ** The handlers on the test doubles *)

Lemma odd_length_rejected_witness :
  Nat.odd (length [Byte.x01; Byte.x02; Byte.x03]) = true
  /\ Np.decode Np.LittleEndian [Byte.x01; Byte.x02; Byte.x03] = Raise MalformedAudioError
  /\ transcribe nat Fixtures.quiet_model Np.LittleEndian [Byte.x01; Byte.x02; Byte.x03]
       Fixtures.proc0
     = (Ok (error_dict MalformedAudioError), Fixtures.proc0).
Proof.
  split; [reflexivity|].
  destruct (odd_length_rejected Fixtures.quiet_model Np.LittleEndian
              [Byte.x01; Byte.x02; Byte.x03] Fixtures.proc0 eq_refl)
    as (_ & Hd & _ & Ht & _).
  split; [exact Hd|exact Ht].
Defined.

Lemma empty_buffer_no_speech_witness :
  Fixtures.quiet_model (model Fixtures.proc0) [] source_kwargs
  = (Ok (IterStop, Fixtures.info_en), 1%nat)
  /\ transcribe nat Fixtures.quiet_model Np.LittleEndian [] Fixtures.proc0
     = (Ok (success_dict (lit "") Fixtures.info_en),
        after_call Fixtures.quiet_model Fixtures.proc0 []).
Proof.
  split; [reflexivity|].
  destruct (empty_buffer_no_speech Fixtures.quiet_model Np.LittleEndian
              Fixtures.proc0 Fixtures.info_en 1%nat eq_refl)
    as (_ & Ht & _).
  exact Ht.
Defined.

(** The answer on the empty body when the model refuses it. *)
Example empty_buffer_strict_model :
  fst (transcribe nat Fixtures.strict_model Np.LittleEndian [] Fixtures.proc0)
  = Ok {[ k_text := VStr (lit "");
          k_is_final := VBool true;
          k_error := VStr (lit "empty audio") ]}.
Proof. reflexivity. Qed.

Lemma quiet_model_deterministic : deterministic_model Fixtures.quiet_model.
Proof. intros m m' audio kw. reflexivity. Qed.

Lemma identical_buffers_identical_answers_witness :
  deterministic_model Fixtures.quiet_model
  /\ exists a,
       fst (serve nat Fixtures.quiet_model Np.LittleEndian
              [PostTranscribe [Byte.x00; Byte.x80]; PostTranscribe [Byte.x01]; GetHealth;
               PostTranscribe [Byte.x00; Byte.x80]] Fixtures.proc0) !! 0%nat = Some a
       /\ fst (serve nat Fixtures.quiet_model Np.LittleEndian
              [PostTranscribe [Byte.x00; Byte.x80]; PostTranscribe [Byte.x01]; GetHealth;
               PostTranscribe [Byte.x00; Byte.x80]] Fixtures.proc0) !! 3%nat = Some a
       /\ a = fst (transcribe nat Fixtures.quiet_model Np.LittleEndian
                     [Byte.x00; Byte.x80] Fixtures.proc0).
Proof.
  split; [exact quiet_model_deterministic|].
  apply (identical_buffers_identical_answers Fixtures.quiet_model Np.LittleEndian
           quiet_model_deterministic Fixtures.proc0
           [PostTranscribe [Byte.x00; Byte.x80]; PostTranscribe [Byte.x01]; GetHealth;
            PostTranscribe [Byte.x00; Byte.x80]] 0%nat 3%nat [Byte.x00; Byte.x80]);
    reflexivity.
Defined.

(** A model that answers from its state gives two answers to one body. *)
Example drifting_model_answers_differ :
  fst (serve nat Fixtures.drifting_model Np.LittleEndian
         [PostTranscribe [Byte.x00; Byte.x80]; PostTranscribe [Byte.x00; Byte.x80]]
         Fixtures.proc0)
  = [Ok (success_dict (lit "even") Fixtures.info_en);
     Ok (success_dict (lit "odd") Fixtures.info_en)].
Proof. reflexivity. Qed.

(** A fault while the segments are read gives the failure dict, drops the
    text read so far, and leaves the readiness answer as it was. *)
Example device_fault_then_health :
  fst (serve nat Fixtures.breaking_model Np.LittleEndian
         [PostTranscribe [Byte.x00; Byte.x80]; GetHealth] Fixtures.proc0)
  = [Ok {[ k_text := VStr (lit "");
           k_is_final := VBool true;
           k_error := VStr (lit "device fault") ]};
     Ok {[ k_status := VStr (lit "ok");
           k_model := VStr (lit "base");
           k_device := VStr (lit "cpu") ]}].
Proof. reflexivity. Qed.

Lemma int16_items_zeros (bo : Np.byteorder) (n : nat) :
  Np.int16_items bo (repeat Byte.x00 (2 * n)) = repeat 0 n.
Proof.
  induction n as [|n IH]; [reflexivity|].
  replace (2 * S n)%nat with (S (S (2 * n))) by lia.
  cbn [repeat Np.int16_items]. rewrite IH. destruct bo; reflexivity.
Qed.

(** All-zero PCM of any length (32000 bytes for one second) decodes to
    samples that are all 0.0. *)
Lemma silence_decodes_to_zeros (bo : Np.byteorder) (n : nat) :
  Np.decode bo (repeat Byte.x00 (2 * n)) = Ok (repeat (S754_zero false) n).
Proof.
  rewrite decode_even.
  - rewrite int16_items_zeros. induction n as [|n IH]; [reflexivity|].
    cbn [repeat map]. injection IH as ->. reflexivity.
  - rewrite repeat_length, Nat.even_mul. reflexivity.
Qed.


(** * Further properties of the code *)

(** ** Decoding: items, chunks, byte order *)

Lemma int16_items_lookup_bytes (bo : Np.byteorder) (buf : list Byte.byte) :
  forall i z,
    Np.int16_items bo buf !! i = Some z <->
    exists b0 b1,
      buf !! (2 * i)%nat = Some b0 /\ buf !! (2 * i + 1)%nat = Some b1
      /\ z = Np.int16_of_bytes bo b0 b1.
Proof.
  induction buf as [|b|b0 b1 rest IH] using pair_ind; intros i z.
  - split; [discriminate|]. intros (c0 & c1 & H & _). discriminate.
  - split; [discriminate|]. intros (c0 & c1 & _ & H & _).
    replace (2 * i + 1)%nat with (S (2 * i)) in H by lia. discriminate.
  - destruct i as [|i].
    + cbn [Np.int16_items]. split.
      * intros [= <-]. exists b0, b1. repeat split.
      * intros (c0 & c1 & [= <-] & [= <-] & ->). reflexivity.
    + cbn [Np.int16_items]. rewrite lookup_cons_ne_0 by lia. cbn [Nat.pred].
      rewrite IH.
      replace (2 * S i)%nat with (S (S (2 * i))) by lia.
      replace (S (S (2 * i)) + 1)%nat with (S (S (2 * i + 1))) by lia.
      reflexivity.
Qed.




Lemma byte_val_inj (a b : Byte.byte) : Np.byte_val a = Np.byte_val b -> a = b.
Proof.
  unfold Np.byte_val. intros H. apply N2Z.inj in H.
  pose proof (Byte.of_to_N a) as Ha. rewrite H, Byte.of_to_N in Ha. congruence.
Qed.

Lemma int16_of_bytes_inj (bo : Np.byteorder) (a0 a1 b0 b1 : Byte.byte) :
  Np.int16_of_bytes bo a0 a1 = Np.int16_of_bytes bo b0 b1 -> a0 = b0 /\ a1 = b1.
Proof.
  pose proof (byte_val_range a0). pose proof (byte_val_range a1).
  pose proof (byte_val_range b0). pose proof (byte_val_range b1).
  unfold Np.int16_of_bytes, Np.signed16. intros Heq.
  assert (Np.byte_val a0 = Np.byte_val b0 /\ Np.byte_val a1 = Np.byte_val b1) as [E0 E1].
  { destruct bo;
      repeat match type of Heq with
             | context [?u <? 32768] => destruct (Z.ltb_spec u 32768)
             end; lia. }
  split; apply byte_val_inj; assumption.
Qed.

Lemma sample_of_inj (z1 z2 : Z) :
  -32768 <= z1 <= 32767 -> -32768 <= z2 <= 32767 ->
  sample_of z1 = sample_of z2 -> z1 = z2.
Proof.
  intros H1 H2 Heq.
  destruct (sample_facts z1 H1) as (_ & Q1 & _).
  destruct (sample_facts z2 H2) as (_ & Q2 & _).
  rewrite Heq, Q2 in Q1. unfold Qeq in Q1. cbn [Qnum Qden] in Q1. lia.
Qed.

(** X2. Decoding loses nothing: two bodies of even length with the same
    samples are the same bytes, on either byte order. *)
Theorem decode_injective (bo : Np.byteorder) (a b : list Byte.byte) :
  Nat.even (length a) = true -> Nat.even (length b) = true ->
  Np.decode bo a = Np.decode bo b -> a = b.
Proof.
  intros Ha Hb. rewrite (decode_even bo a Ha), (decode_even bo b Hb).
  intros [= H]. revert b Hb H.
  induction a as [|x|a0 a1 rest IH] using pair_ind; intros b Hb H.
  - destruct b as [|y0 [|y1 b]]; [reflexivity|discriminate|discriminate].
  - discriminate.
  - destruct b as [|y0 [|y1 b]]; [discriminate|discriminate|].
    cbn [Np.int16_items map] in H. injection H as Hhd Htl.
    apply sample_of_inj in Hhd; try apply int16_of_bytes_range.
    apply int16_of_bytes_inj in Hhd as [-> ->].
    f_equal. f_equal. apply IH; assumption.
Qed.

Lemma decode_injective_witness :
  Nat.even (length [Byte.x00; Byte.x80]) = true
  /\ Nat.even (length [Byte.x00; Byte.x80]) = true
  /\ Np.decode Np.LittleEndian [Byte.x00; Byte.x80]
     = Np.decode Np.LittleEndian [Byte.x00; Byte.x80]
  /\ [Byte.x00; Byte.x80] = [Byte.x00; Byte.x80].
Proof.
  split; [reflexivity|]. split; [reflexivity|]. split; [reflexivity|].
  apply (decode_injective Np.LittleEndian [Byte.x00; Byte.x80] [Byte.x00; Byte.x80]);
    reflexivity.
Defined.

Lemma int16_zero_iff (bo : Np.byteorder) (b0 b1 : Byte.byte) :
  Np.int16_of_bytes bo b0 b1 = 0 <-> b0 = Byte.x00 /\ b1 = Byte.x00.
Proof.
  split.
  - intros H. apply (int16_of_bytes_inj bo b0 b1 Byte.x00 Byte.x00).
    rewrite H. destruct bo; reflexivity.
  - intros [-> ->]. destruct bo; reflexivity.
Qed.

Lemma sample_zero_iff (z : Z) :
  -32768 <= z <= 32767 ->
  (sample_of z = S754_zero false <-> z = 0) /\ sample_of z <> S754_zero true.
Proof.
  intros Hz. destruct (sample_facts z Hz) as (_ & Hq & _).
  assert (Hval : forall sg, sample_of z = S754_zero sg -> z = 0).
  { intros sg Hs. rewrite Hs in Hq. unfold Qeq in Hq. cbn in Hq. lia. }
  split; [split|].
  - apply Hval.
  - intros ->. vm_compute. reflexivity.
  - intros Hs. pose proof (Hval _ Hs) as ->. vm_compute in Hs. discriminate.
Qed.

(** X3. Silence is kept as it is: on either byte order a sample is +0.0
    exactly when its two bytes are zero, and no sample is -0.0; so no
    sound, however faint, decodes to zero. *)
Theorem zero_sample_iff_zero_bytes (bo : Np.byteorder) (buf : list Byte.byte)
        (samples : list Np.float32) (i : nat) (s : Np.float32) :
  Np.decode bo buf = Ok samples ->
  samples !! i = Some s ->
  (s = S754_zero false <->
   buf !! (2 * i)%nat = Some Byte.x00 /\ buf !! (2 * i + 1)%nat = Some Byte.x00)
  /\ s <> S754_zero true.
Proof.
  intros Hd Hs.
  destruct (Nat.even (length buf)) eqn:He.
  2:{ rewrite decode_odd in Hd; [discriminate|]. unfold Nat.odd. rewrite He. reflexivity. }
  rewrite (decode_even bo buf He) in Hd. injection Hd as <-.
  rewrite list_lookup_fmap in Hs.
  destruct (Np.int16_items bo buf !! i) as [z|] eqn:Hz; [|discriminate].
  cbn in Hs. injection Hs as <-.
  pose proof (int16_items_range _ _ _ _ Hz) as Hr.
  destruct (sample_zero_iff z Hr) as (Hzero & Hneg).
  apply int16_items_lookup_bytes in Hz as (b0 & b1 & H0 & H1 & ->).
  split; [|exact Hneg].
  rewrite Hzero, int16_zero_iff, H0, H1.
  split; [intros [-> ->]; split; reflexivity|intros [[= ->] [= ->]]; split; reflexivity].
Qed.

Lemma zero_sample_iff_zero_bytes_witness :
  Np.decode Np.LittleEndian [Byte.x00; Byte.x00; Byte.x01; Byte.x00]
  = Ok [S754_zero false; S754_finite false 8388608 (-38)]
  /\ ([S754_zero false; S754_finite false 8388608 (-38)] : list Np.float32) !! 1%nat
     = Some (S754_finite false 8388608 (-38))
  /\ ((S754_finite false 8388608 (-38) = S754_zero false <->
       [Byte.x00; Byte.x00; Byte.x01; Byte.x00] !! (2 * 1)%nat = Some Byte.x00
       /\ [Byte.x00; Byte.x00; Byte.x01; Byte.x00] !! (2 * 1 + 1)%nat = Some Byte.x00)
      /\ S754_finite false 8388608 (-38) <> S754_zero true).
Proof.
  assert (Hd : Np.decode Np.LittleEndian [Byte.x00; Byte.x00; Byte.x01; Byte.x00]
               = Ok [S754_zero false; S754_finite false 8388608 (-38)])
    by (vm_compute; reflexivity).
  split; [exact Hd|]. split; [reflexivity|].
  apply (zero_sample_iff_zero_bytes Np.LittleEndian _ _ 1%nat _ Hd). reflexivity.
Defined.

Lemma swap_pairs_length (buf : list Byte.byte) : length (swap_pairs buf) = length buf.
Proof.
  induction buf as [|b|b0 b1 rest IH] using pair_ind; [reflexivity|reflexivity|].
  cbn [swap_pairs length]. rewrite IH. reflexivity.
Qed.

Lemma swap_pairs_items (buf : list Byte.byte) :
  Np.int16_items Np.BigEndian buf = Np.int16_items Np.LittleEndian (swap_pairs buf).
Proof.
  induction buf as [|b|b0 b1 rest IH] using pair_ind; [reflexivity|reflexivity|].
  cbn [swap_pairs Np.int16_items]. rewrite IH. reflexivity.
Qed.

(** X4. The samples depend on the byte order of the host: a big-endian
    host decodes a body as a little-endian host decodes the body with the
    two bytes of every item exchanged, and refuses the same bodies. *)
Theorem decode_big_endian_swaps (buf : list Byte.byte) :
  Np.decode Np.BigEndian buf = Np.decode Np.LittleEndian (swap_pairs buf).
Proof.
  unfold Np.decode, Np.frombuffer_int16.
  rewrite swap_pairs_length, swap_pairs_items. reflexivity.
Qed.

(** ** Stripping and joining *)

Lemma lstrip_id (s : str) : no_leading_space s -> lstrip s = s.
Proof.
  destruct s as [|c s]; [reflexivity|]. cbn. intros ->. reflexivity.
Qed.

Lemma rstrip_id (s : str) : no_trailing_space s -> rstrip s = s.
Proof.
  unfold no_trailing_space, rstrip. intros H.
  rewrite lstrip_id by exact H. apply rev_involutive.
Qed.

(** X5. Stripping leaves a string as it is exactly when it has no
    whitespace at either end, and stripping twice is stripping once. *)
Theorem strip_fixed_point (s : str) :
  (strip s = s <-> no_leading_space s /\ no_trailing_space s)
  /\ strip (strip s) = strip s.
Proof.
  assert (Hfix : forall t, no_leading_space t -> no_trailing_space t -> strip t = t).
  { intros t Hl Ht. unfold strip. rewrite (lstrip_id t Hl). apply rstrip_id, Ht. }
  destruct (strip_spec s) as (pre & post & _ & _ & _ & Hl & Ht).
  split; [split|].
  - intros Heq. rewrite <- Heq. split; assumption.
  - intros [H1 H2]. apply Hfix; assumption.
  - apply Hfix; assumption.
Qed.

Lemma lstrip_all_space (s : str) : all_space s -> lstrip s = [].
Proof.
  induction 1 as [|c s Hc _ IH]; [reflexivity|].
  cbn [lstrip]. rewrite Hc. exact IH.
Qed.

Lemma strip_empty_iff (s : str) : strip s = [] <-> all_space s.
Proof.
  split.
  - intros He. destruct (strip_spec s) as (pre & post & Hs & Hpre & Hpost & _).
    rewrite He in Hs. rewrite Hs. apply Forall_app. split; assumption.
  - intros Hs. unfold strip. rewrite (lstrip_all_space s Hs). reflexivity.
Qed.

Lemma join_all_space (texts : list str) :
  all_space (join (lit " ") texts) <-> Forall all_space texts.
Proof.
  induction texts as [|t texts IH]; [split; constructor|].
  destruct texts as [|t' texts].
  - cbn [join]. split; [intros H; constructor; [exact H|constructor]|].
    intros H. inversion H. assumption.
  - change (join (lit " ") (t :: t' :: texts))
      with (t ++ lit " " ++ join (lit " ") (t' :: texts)).
    unfold all_space at 1. rewrite !Forall_app. fold (all_space t).
    fold (all_space (join (lit " ") (t' :: texts))). rewrite IH.
    split.
    + intros (Ht & _ & Hrest). constructor; assumption.
    + intros H. inversion H as [|? ? Ht Hrest]. subst.
      split; [exact Ht|]. split; [|exact Hrest].
      constructor; [reflexivity|constructor].
Qed.

(** X6. The assembled text of a finite run of segments is empty exactly
    when every segment's text is whitespace only (no segment at all
    included). *)
Theorem assemble_empty_iff (segs : list Segment) :
  assemble (iter_of_list segs) = Ok (lit "")
  <-> Forall (fun s => all_space (text s)) segs.
Proof.
  rewrite assemble_list. rewrite <- (List.Forall_map text all_space).
  rewrite <- join_all_space, <- strip_empty_iff.
  split; [intros [= H]; exact H|intros ->; reflexivity].
Qed.

(** ** The handlers over failures and runs of requests *)

Lemma for_segments_raising (l : list Segment) (e : PyExn) :
  forall acc, for_segments (iter_raising l e) acc = Raise e.
Proof.
  induction l as [|s l IH]; intros acc; cbn [iter_raising for_segments]; [reflexivity|].
  apply IH.
Qed.

Lemma assemble_stripped (segments : SegmentIter) (t : str) :
  assemble segments = Ok t -> no_leading_space t /\ no_trailing_space t.
Proof.
  unfold assemble. destruct (for_segments segments []) as [parts|e]; [|discriminate].
  intros [= <-]. destruct (strip_spec (join (lit " ") parts)) as (_ & _ & _ & _ & _ & Hl & Ht).
  split; assumption.
Qed.

Section RunProperties.

Context {ModelState : Type}.
Variable WhisperModel : str -> str -> str -> Py ModelState.
Variable model_transcribe :
  ModelState -> list Np.float32 -> TranscribeKwargs ->
  Py (SegmentIter * TranscriptionInfo) * ModelState.
Variable host : Np.byteorder.

Local Abbreviation transcribe := (transcribe ModelState model_transcribe host).
Local Abbreviation dispatch := (dispatch ModelState model_transcribe host).
Local Abbreviation serve := (serve ModelState model_transcribe host).
Local Abbreviation startup := (startup ModelState WhisperModel).
Local Abbreviation after_call := (after_call model_transcribe).

(** X7. When the generator of segments raises after yielding some of
    them, the answer is the failure dict with the message of that
    exception (an object that is not an instance of [Exception] goes
    through instead): the text read so far is dropped, and the call stays
    in the log. *)
Theorem generator_failure_drops_partial_text
        (buf : list Byte.byte) (st : Proc ModelState) (audio : list Np.float32)
        (yielded : list Segment) (e : PyExn) (info : TranscriptionInfo) :
  Np.decode host buf = Ok audio ->
  fst (model_transcribe (model st) audio source_kwargs) = Ok (iter_raising yielded e, info) ->
  transcribe buf st
  = (if exn_is_exception e then Ok (error_dict e) else Raise e, after_call st audio)
  /\ error_dict e !! k_text = Some (VStr (lit ""))
  /\ error_dict e !! k_error = Some (VStr (exn_str e)).
Proof.
  intros Hd Hm. split; [|split; reflexivity].
  rewrite transcribe_paths, transcribe_try_paths, Hd, Hm.
  unfold assemble. rewrite for_segments_raising. reflexivity.
Qed.

(** X8. When the call of the model raises, the answer is the failure dict
    with the message of that exception (an object that is not an instance
    of [Exception] goes through instead); the call is logged, the model
    keeps the state the failed call left, and the globals are untouched. *)
Theorem model_failure_is_reported
        (buf : list Byte.byte) (st : Proc ModelState) (audio : list Np.float32)
        (e : PyExn) :
  Np.decode host buf = Ok audio ->
  fst (model_transcribe (model st) audio source_kwargs) = Raise e ->
  transcribe buf st
  = (if exn_is_exception e then Ok (error_dict e) else Raise e, after_call st audio)
  /\ model (snd (transcribe buf st)) = snd (model_transcribe (model st) audio source_kwargs)
  /\ calls (snd (transcribe buf st)) = calls st ++ [mkCall audio source_kwargs]
  /\ fst (health (snd (transcribe buf st))) = fst (health st).
Proof.
  intros Hd Hm.
  assert (Ht : transcribe buf st
               = (if exn_is_exception e then Ok (error_dict e) else Raise e,
                  after_call st audio)).
  { rewrite transcribe_paths, transcribe_try_paths, Hd, Hm. reflexivity. }
  rewrite Ht. repeat split; reflexivity.
Qed.

(** X9. When the body has even length and the model returns a finite run
    of segments, the answer is the success dict whose text is the texts
    joined by one space and stripped, with the language fields of the
    model; the model was given one sample per two bytes. *)
Theorem transcribe_success
        (buf : list Byte.byte) (st : Proc ModelState)
        (segs : list Segment) (info : TranscriptionInfo) :
  Nat.even (length buf) = true ->
  fst (model_transcribe (model st) (map sample_of (Np.int16_items host buf)) source_kwargs)
  = Ok (iter_of_list segs, info) ->
  transcribe buf st
  = (Ok (success_dict (strip (join (lit " ") (map text segs))) info),
     after_call st (map sample_of (Np.int16_items host buf)))
  /\ calls (snd (transcribe buf st))
     = calls st ++ [mkCall (map sample_of (Np.int16_items host buf)) source_kwargs]
  /\ length (map sample_of (Np.int16_items host buf)) = (length buf / 2)%nat.
Proof.
  intros He Hm.
  assert (Ht : transcribe buf st
               = (Ok (success_dict (strip (join (lit " ") (map text segs))) info),
                  after_call st (map sample_of (Np.int16_items host buf)))).
  { rewrite transcribe_paths, transcribe_try_paths, (decode_even host buf He), Hm.
    rewrite assemble_list. reflexivity. }
  rewrite Ht. split; [reflexivity|]. split; [reflexivity|].
  rewrite length_map. apply int16_items_length.
Qed.

(** X10. Whatever the body and the model do, the text of the answer
    given has no whitespace at its start or at its end; no answer is given
    only when an object that is not an instance of [Exception] goes
    through the handler. *)
Theorem answer_text_is_stripped (buf : list Byte.byte) (st : Proc ModelState) :
  match fst (transcribe buf st) with
  | Ok d =>
      exists t,
        d !! k_text = Some (VStr t)
        /\ no_leading_space t /\ no_trailing_space t
  | Raise e => exn_is_exception e = false
  end.
Proof.
  rewrite transcribe_paths, transcribe_try_paths.
  assert (Herr : forall e (st' : Proc ModelState),
    match fst (if exn_is_exception e then Ok (error_dict e) else Raise e, st') with
    | Ok d => exists t, d !! k_text = Some (VStr t)
                        /\ no_leading_space t /\ no_trailing_space t
    | Raise e' => exn_is_exception e' = false
    end).
  { intros e st'. cbn [fst]. destruct (exn_is_exception e) eqn:He; [|exact He].
    exists (lit ""). repeat split. }
  destruct (Np.decode host buf) as [audio|e]; [|apply Herr].
  destruct (fst (model_transcribe (model st) audio source_kwargs))
    as [[segments info]|e]; [|apply Herr].
  destruct (assemble segments) as [full_text|e] eqn:Ha; [|apply Herr].
  destruct (assemble_stripped _ _ Ha) as [Hl Ht].
  cbn [fst]. exists full_text. repeat split; assumption.
Qed.


(** X12. Startup reads the three variables, a variable that is set
    winning over its default even when it is empty, and builds the model
    from them; the process exists exactly when the constructor returns,
    holds the model it returned and an empty call log, and a failure of the
    constructor is raised as it is. *)
Theorem startup_outcome (environ : gmap str str) :
  match startup environ with
  | Ok st0 =>
      model_size st0 = default (lit "base") (environ !! lit "MODEL_SIZE")
      /\ device st0 = default (lit "cpu") (environ !! lit "DEVICE")
      /\ compute_type st0 = default (lit "int8") (environ !! lit "COMPUTE_TYPE")
      /\ WhisperModel (model_size st0) (device st0) (compute_type st0) = Ok (model st0)
      /\ calls st0 = []
  | Raise e =>
      WhisperModel (default (lit "base") (environ !! lit "MODEL_SIZE"))
                   (default (lit "cpu") (environ !! lit "DEVICE"))
                   (default (lit "int8") (environ !! lit "COMPUTE_TYPE")) = Raise e
  end.
Proof.
  assert (Hg : forall k d, getenv environ k d = default d (environ !! k)).
  { intros k d. unfold getenv. destruct (environ !! k); reflexivity. }
  unfold WhisperServer.startup. rewrite !Hg.
  destruct (WhisperModel _ _ _) as [m|e] eqn:Hw; [|reflexivity].
  cbn. repeat split; try reflexivity. exact Hw.
Qed.

Lemma dispatch_short_of_model (r : Req) (st : Proc ModelState) :
  reaches_model r = false -> snd (dispatch r st) = st.
Proof.
  destruct r as [body|]; [|reflexivity].
  cbn [reaches_model WhisperServer.dispatch]. intros He.
  rewrite transcribe_paths, transcribe_try_paths, decode_odd; [reflexivity|].
  unfold Nat.odd. rewrite He. reflexivity.
Qed.

(** X13. Requests that do not reach the model (readiness checks, bodies
    of odd length) leave no trace: the process after a run is the process
    after the run without them, and the other requests get the answers
    they would get without them, even from a model that keeps state. *)
Theorem requests_short_of_model_leave_no_trace (rs : list Req) :
  forall st : Proc ModelState,
    snd (serve rs st) = snd (serve (List.filter reaches_model rs) st)
    /\ answers_to reaches_model rs (fst (serve rs st))
       = fst (serve (List.filter reaches_model rs) st).
Proof.
  unfold answers_to.
  induction rs as [|r rs IH]; intros st; [split; reflexivity|].
  cbn [WhisperServer.serve List.filter].
  destruct (reaches_model r) eqn:Hr.
  - cbn [WhisperServer.serve].
    destruct (dispatch r st) as [a st1]. specialize (IH st1).
    destruct (serve rs st1) as [answers st2].
    destruct (serve (List.filter reaches_model rs) st1) as [answers' st2'].
    cbn [fst snd combine List.filter] in *. rewrite Hr. cbn [map snd].
    destruct IH as [-> ->]. split; reflexivity.
  - pose proof (dispatch_short_of_model r st Hr) as Hst.
    destruct (dispatch r st) as [a st1]. cbn [snd] in Hst. subst st1.
    specialize (IH st).
    destruct (serve rs st) as [answers st2].
    cbn [fst snd combine List.filter] in *. rewrite Hr. exact IH.
Qed.

End RunProperties.

Lemma generator_failure_drops_partial_text_witness :
  Np.decode Np.LittleEndian [Byte.x00; Byte.x80] = Ok [f32_minus_one]
  /\ fst (Fixtures.breaking_model (model Fixtures.proc0) [f32_minus_one] source_kwargs)
     = Ok (iter_raising [Fixtures.seg "partial"]
             (mkExn (lit "RuntimeError") (lit "device fault")), Fixtures.info_en)
  /\ transcribe nat Fixtures.breaking_model Np.LittleEndian [Byte.x00; Byte.x80] Fixtures.proc0
     = (Ok (error_dict (mkExn (lit "RuntimeError") (lit "device fault"))),
        after_call Fixtures.breaking_model Fixtures.proc0 [f32_minus_one]).
Proof.
  assert (Hd : Np.decode Np.LittleEndian [Byte.x00; Byte.x80] = Ok [f32_minus_one])
    by (vm_compute; reflexivity).
  split; [exact Hd|]. split; [reflexivity|].
  destruct (generator_failure_drops_partial_text Fixtures.breaking_model Np.LittleEndian
              [Byte.x00; Byte.x80] Fixtures.proc0 [f32_minus_one]
              [Fixtures.seg "partial"] (mkExn (lit "RuntimeError") (lit "device fault"))
              Fixtures.info_en Hd eq_refl) as [Ht _].
  exact Ht.
Defined.

Lemma model_failure_is_reported_witness :
  Np.decode Np.LittleEndian [] = Ok []
  /\ fst (Fixtures.strict_model (model Fixtures.proc0) [] source_kwargs)
     = Raise (mkExn (lit "ValueError") (lit "empty audio"))
  /\ transcribe nat Fixtures.strict_model Np.LittleEndian [] Fixtures.proc0
     = (Ok (error_dict (mkExn (lit "ValueError") (lit "empty audio"))),
        after_call Fixtures.strict_model Fixtures.proc0 []).
Proof.
  split; [reflexivity|]. split; [reflexivity|].
  destruct (model_failure_is_reported Fixtures.strict_model Np.LittleEndian
              [] Fixtures.proc0 [] (mkExn (lit "ValueError") (lit "empty audio"))
              eq_refl eq_refl) as [Ht _].
  exact Ht.
Defined.

Lemma transcribe_success_witness :
  Nat.even (length [Byte.x00; Byte.x80]) = true
  /\ fst (Fixtures.quiet_model (model Fixtures.proc0)
            (map sample_of (Np.int16_items Np.LittleEndian [Byte.x00; Byte.x80]))
            source_kwargs)
     = Ok (iter_of_list [Fixtures.seg " hello"; Fixtures.seg " world"], Fixtures.info_en)
  /\ fst (transcribe nat Fixtures.quiet_model Np.LittleEndian [Byte.x00; Byte.x80]
            Fixtures.proc0)
     = Ok (success_dict (lit "hello  world") Fixtures.info_en).
Proof.
  split; [reflexivity|]. split; [reflexivity|].
  destruct (transcribe_success Fixtures.quiet_model Np.LittleEndian
              [Byte.x00; Byte.x80] Fixtures.proc0
              [Fixtures.seg " hello"; Fixtures.seg " world"] Fixtures.info_en
              eq_refl eq_refl) as [Ht _].
  rewrite Ht. reflexivity.
Defined.

(** Startup on the doubles: two variables set, one left to its default;
    and a model that does not load. *)
Example startup_small_cuda :
  startup nat fake_loader env_small_cuda
  = Ok (mkProc (lit "small") (lit "cuda") (lit "int8") 0%nat []).
Proof. reflexivity. Qed.

Example startup_empty_model_size :
  startup nat fake_loader (<[ lit "MODEL_SIZE" := lit "" ]> env_small_cuda)
  = Raise (mkExn (lit "ValueError") (lit "Invalid model size")).
Proof. reflexivity. Qed.

(** ** What assembly keeps *)

Lemma visible_app (a b : str) : visible (a ++ b) = visible a ++ visible b.
Proof. apply List.filter_app. Qed.

Lemma visible_all_space (s : str) : all_space s -> visible s = [].
Proof.
  induction 1 as [|c s Hc _ IH]; [reflexivity|].
  cbn [visible List.filter]. rewrite Hc. exact IH.
Qed.

Lemma visible_strip (s : str) : visible (strip s) = visible s.
Proof.
  destruct (strip_spec s) as (pre & post & Hs & Hpre & Hpost & _).
  rewrite Hs at 2. rewrite !visible_app.
  rewrite (visible_all_space pre Hpre), (visible_all_space post Hpost), app_nil_r.
  reflexivity.
Qed.

Lemma visible_join (texts : list str) :
  visible (join (lit " ") texts) = concat (map visible texts).
Proof.
  induction texts as [|t texts IH]; [reflexivity|].
  destruct texts as [|t' texts].
  - cbn [join map concat]. rewrite app_nil_r. reflexivity.
  - change (join (lit " ") (t :: t' :: texts))
      with (t ++ lit " " ++ join (lit " ") (t' :: texts)).
    rewrite !visible_app, IH. reflexivity.
Qed.

(** X14. Assembly loses and reorders no character other than whitespace:
    the non-whitespace characters of the assembled text are those of the
    segments' texts, in the order of the segments. *)
Theorem assemble_keeps_visible_text (segs : list Segment) :
  exists full_text,
    assemble (iter_of_list segs) = Ok full_text
    /\ visible full_text = concat (map (fun s => visible (text s)) segs).
Proof.
  exists (strip (join (lit " ") (map text segs))).
  split; [apply assemble_list|].
  rewrite visible_strip, visible_join, map_map. reflexivity.
Qed.

(** ** What goes through the handler *)


(** The same at the call of the model: an interrupt raised there goes
    through, after the call has been made. *)
Example interrupt_in_model_escapes :
  transcribe nat interrupted_model Np.LittleEndian [Byte.x00; Byte.x80] Fixtures.proc0
  = (Raise KeyboardInterrupt,
     after_call interrupted_model Fixtures.proc0 [f32_minus_one]).
Proof. vm_compute. reflexivity. Qed.

(** A client that goes away raises an instance of [Exception] at the
    await: it is answered, to nobody, with the failure dict. *)
Example disconnected_request_is_caught :
  fst (transcribe_request nat Fixtures.quiet_model Np.LittleEndian
         (mkRequest (Raise (mkExn (lit "ClientDisconnect") (lit "")))) Fixtures.proc0)
  = Ok {[ k_text := VStr (lit "");
          k_is_final := VBool true;
          k_error := VStr (lit "") ]}.
Proof. reflexivity. Qed.

(** A request whose body has been read is handled as its body. *)
Lemma transcribe_request_inbound {ModelState : Type}
      (model_transcribe : ModelState -> list Np.float32 -> TranscribeKwargs ->
                          Py (SegmentIter * TranscriptionInfo) * ModelState)
      (host : Np.byteorder) (audio_data : list Byte.byte) (st : Proc ModelState) :
  transcribe_request ModelState model_transcribe host (inbound audio_data) st
  = transcribe ModelState model_transcribe host audio_data st.
Proof. exact (transcribe_request_paths model_transcribe host (inbound audio_data) st). Qed.

Lemma model_called_with_fixed_options_witness :
  Np.decode Np.LittleEndian [Byte.x00; Byte.x80] = Ok [f32_minus_one]
  /\ snd (transcribe nat picky_model Np.LittleEndian [Byte.x00; Byte.x80] Fixtures.proc0)
     = mkProc (lit "base") (lit "cpu") (lit "int8") 1%nat
              [mkCall [f32_minus_one] source_kwargs]
  /\ fst (transcribe nat picky_model Np.LittleEndian [Byte.x00; Byte.x80] Fixtures.proc0)
     = Ok (success_dict (lit "heard") (mkInfo (lit "en") f32_top)).
Proof.
  assert (Hd : Np.decode Np.LittleEndian [Byte.x00; Byte.x80] = Ok [f32_minus_one])
    by (vm_compute; reflexivity).
  split; [exact Hd|].
  destruct (model_called_with_fixed_options picky_model Np.LittleEndian
              [Byte.x00; Byte.x80] Fixtures.proc0 [f32_minus_one] Hd)
    as (_ & _ & _ & _ & Hst & Hans & _).
  split; [exact Hst|].
  exact (proj1 Hans).
Defined.

(** The model of that witness refuses any other keyword arguments. *)
Example picky_model_refuses_other_options :
  fst (picky_model 0%nat [f32_minus_one]
         (mkKwargs (lit "en") 1 true {[ lit "min_silence_duration_ms" := VInt 500 ]}))
  = Raise (mkExn (lit "TypeError") (lit "unexpected keyword arguments")).
Proof. reflexivity. Qed.
